(** * create_temp_font.py: the placeholder bitmap-font generator

    The script allocates a zero-filled [bytearray] of [256 * 16] bytes,
    stores literal row bitmaps for the glyphs A, H, e, l and o by direct
    item assignment, writes the buffer to [assets/default_font.bin] and
    prints a confirmation line.

    The embedding follows the script statement by statement:
    - Python integers are [Z]; a [bytearray] is a [list Z] whose items
      lie in [0, 256);
    - item assignment is [setitem], with CPython's two checks and its
      two exceptions; the index is checked before the byte value, as
      CPython does up to 3.10 (from 3.11 on the value comes first; the
      orders differ only in the exception of an assignment that fails
      both checks, and nothing below depends on it);
    - exceptions are the [Raise] case of [result]; the script has no
      [try], so a raised exception reaches the interpreter's top level;
    - the file system, the standard streams and the calls the process
      makes are fields of [World]; the script is a function on worlds;
      [open_wb], [write], [close] and [print] give the behaviour of the
      Python built-ins the script calls, and [main] that of the
      interpreter running it, with its exit status;
    - what the platform decides (other names of a file, refusals to
      open, the mode of created files, the room on the volume, the size
      of file buffers, the state of the standard output) is a field of
      [World] as well, so that every statement holds for every choice;
    - [import struct] is never used and has no counterpart. *)

From stdpp Require Import base option list gmap strings fin_maps.
From Stdlib Require Import ZArith Lia Permutation Ascii.

Local Open Scope Z_scope.

(** ** Exceptions and results *)

Inductive exn : Type :=
  | IndexError
  | ValueError
  | FileNotFoundError
  | NotADirectoryError
  | IsADirectoryError
  | PermissionError
  | NoSpaceError
  | OSError
  | BrokenPipeError.

Inductive result (A : Type) : Type :=
  | Ok (a : A)
  | Raise (e : exn).
Arguments Ok {A} a.
Arguments Raise {A} e.

#[global] Instance result_ret : MRet result := λ A, Ok.

#[global] Instance result_bind : MBind result := λ A B k r,
  match r with
  | Ok a => k a
  | Raise e => Raise e
  end.

Definition is_ok {A} (r : result A) : bool :=
  match r with Ok _ => true | Raise _ => false end.

Definition from_ok {A} (d : A) (r : result A) : A :=
  match r with Ok a => a | Raise _ => d end.

(** ** Integer literals

    The script writes every row value as a binary literal [0b...];
    [bin] reads the digits most significant first, as Python does. *)

Definition bit_of (a : ascii) : Z :=
  if Ascii.eqb a "1"%char then 1 else 0.

Fixpoint bin_from (acc : Z) (s : string) : Z :=
  match s with
  | EmptyString => acc
  | String a s' => bin_from (2 * acc + bit_of a) s'
  end.

Definition bin (s : string) : Z := bin_from 0 s.

(** ** The bytearray *)

Module ByteArray.

Abbreviation t := (list Z).

(** [bytearray(n)]: [n] zero bytes. *)
Definition make (n : Z) : t := replicate (Z.to_nat n) 0.

Definition len (b : t) : Z := Z.of_nat (length b).

(** [b[i]] as a total lookup: [None] outside [0 <= i < len b]. *)
Definition get (b : t) (i : Z) : option Z :=
  if i <? 0 then None else b !! Z.to_nat i.

(** [b[i] = v].  A negative index counts from the end; an index that
    is still outside the buffer raises [IndexError]; otherwise a value
    outside [range(0, 256)] raises [ValueError]; otherwise the item is
    replaced in place. *)
Definition setitem (b : t) (i v : Z) : result t :=
  let j := if i <? 0 then i + len b else i in
  if (j <? 0) || (len b <=? j) then Raise IndexError
  else if (v <? 0) || (256 <=? v) then Raise ValueError
  else Ok (<[Z.to_nat j := v]> b).

(** Every item is a byte. *)
Definition wf (b : t) : Prop := Forall (λ x, 0 ≤ x < 256) b.

End ByteArray.

Abbreviation bytearray := ByteArray.make.

(** ** Glyph population

    [populate] is lines 9-57 of the script, one [setitem] per
    assignment statement, in source order, on the buffer it is given. *)

Definition populate (font_data : ByteArray.t) : result ByteArray.t :=
  (* A (0x41) *)
  font_data ← ByteArray.setitem font_data (0x41 * 16 + 2) (bin "00111100");
  font_data ← ByteArray.setitem font_data (0x41 * 16 + 3) (bin "01100110");
  font_data ← ByteArray.setitem font_data (0x41 * 16 + 4) (bin "11000011");
  font_data ← ByteArray.setitem font_data (0x41 * 16 + 5) (bin "11000011");
  font_data ← ByteArray.setitem font_data (0x41 * 16 + 6) (bin "11111111");
  font_data ← ByteArray.setitem font_data (0x41 * 16 + 7) (bin "11000011");
  font_data ← ByteArray.setitem font_data (0x41 * 16 + 8) (bin "11000011");
  font_data ← ByteArray.setitem font_data (0x41 * 16 + 9) (bin "11000011");
  (* H (0x48) *)
  font_data ← ByteArray.setitem font_data (0x48 * 16 + 2) (bin "11000011");
  font_data ← ByteArray.setitem font_data (0x48 * 16 + 3) (bin "11000011");
  font_data ← ByteArray.setitem font_data (0x48 * 16 + 4) (bin "11000011");
  font_data ← ByteArray.setitem font_data (0x48 * 16 + 5) (bin "11111111");
  font_data ← ByteArray.setitem font_data (0x48 * 16 + 6) (bin "11000011");
  font_data ← ByteArray.setitem font_data (0x48 * 16 + 7) (bin "11000011");
  font_data ← ByteArray.setitem font_data (0x48 * 16 + 8) (bin "11000011");
  font_data ← ByteArray.setitem font_data (0x48 * 16 + 9) (bin "11000011");
  (* e (0x65) *)
  font_data ← ByteArray.setitem font_data (0x65 * 16 + 4) (bin "00111100");
  font_data ← ByteArray.setitem font_data (0x65 * 16 + 5) (bin "01100110");
  font_data ← ByteArray.setitem font_data (0x65 * 16 + 6) (bin "11111111");
  font_data ← ByteArray.setitem font_data (0x65 * 16 + 7) (bin "11000000");
  font_data ← ByteArray.setitem font_data (0x65 * 16 + 8) (bin "11000000");
  font_data ← ByteArray.setitem font_data (0x65 * 16 + 9) (bin "01100110");
  font_data ← ByteArray.setitem font_data (0x65 * 16 + 10) (bin "00111100");
  (* l (0x6C) *)
  font_data ← ByteArray.setitem font_data (0x6C * 16 + 1) (bin "00111000");
  font_data ← ByteArray.setitem font_data (0x6C * 16 + 2) (bin "00011000");
  font_data ← ByteArray.setitem font_data (0x6C * 16 + 3) (bin "00011000");
  font_data ← ByteArray.setitem font_data (0x6C * 16 + 4) (bin "00011000");
  font_data ← ByteArray.setitem font_data (0x6C * 16 + 5) (bin "00011000");
  font_data ← ByteArray.setitem font_data (0x6C * 16 + 6) (bin "00011000");
  font_data ← ByteArray.setitem font_data (0x6C * 16 + 7) (bin "00011000");
  font_data ← ByteArray.setitem font_data (0x6C * 16 + 8) (bin "00011000");
  font_data ← ByteArray.setitem font_data (0x6C * 16 + 9) (bin "00011000");
  font_data ← ByteArray.setitem font_data (0x6C * 16 + 10) (bin "00111100");
  (* o (0x6F) *)
  font_data ← ByteArray.setitem font_data (0x6F * 16 + 4) (bin "00111100");
  font_data ← ByteArray.setitem font_data (0x6F * 16 + 5) (bin "01100110");
  font_data ← ByteArray.setitem font_data (0x6F * 16 + 6) (bin "11000011");
  font_data ← ByteArray.setitem font_data (0x6F * 16 + 7) (bin "11000011");
  font_data ← ByteArray.setitem font_data (0x6F * 16 + 8) (bin "11000011");
  font_data ← ByteArray.setitem font_data (0x6F * 16 + 9) (bin "01100110");
  font_data ← ByteArray.setitem font_data (0x6F * 16 + 10) (bin "00111100");
  Ok font_data.

(** Lines 7-57: allocate, then populate. *)
Definition build : result ByteArray.t := populate (bytearray (256 * 16)).

(** The assignment statements of lines 9-57 as data, in source order:
    the pair [(i, v)] stands for [font_data[i] = v]. *)
Definition assignments : list (Z * Z) :=
  [
    (* A (0x41) *)
    (0x41 * 16 + 2, bin "00111100");
    (0x41 * 16 + 3, bin "01100110");
    (0x41 * 16 + 4, bin "11000011");
    (0x41 * 16 + 5, bin "11000011");
    (0x41 * 16 + 6, bin "11111111");
    (0x41 * 16 + 7, bin "11000011");
    (0x41 * 16 + 8, bin "11000011");
    (0x41 * 16 + 9, bin "11000011");
    (* H (0x48) *)
    (0x48 * 16 + 2, bin "11000011");
    (0x48 * 16 + 3, bin "11000011");
    (0x48 * 16 + 4, bin "11000011");
    (0x48 * 16 + 5, bin "11111111");
    (0x48 * 16 + 6, bin "11000011");
    (0x48 * 16 + 7, bin "11000011");
    (0x48 * 16 + 8, bin "11000011");
    (0x48 * 16 + 9, bin "11000011");
    (* e (0x65) *)
    (0x65 * 16 + 4, bin "00111100");
    (0x65 * 16 + 5, bin "01100110");
    (0x65 * 16 + 6, bin "11111111");
    (0x65 * 16 + 7, bin "11000000");
    (0x65 * 16 + 8, bin "11000000");
    (0x65 * 16 + 9, bin "01100110");
    (0x65 * 16 + 10, bin "00111100");
    (* l (0x6C) *)
    (0x6C * 16 + 1, bin "00111000");
    (0x6C * 16 + 2, bin "00011000");
    (0x6C * 16 + 3, bin "00011000");
    (0x6C * 16 + 4, bin "00011000");
    (0x6C * 16 + 5, bin "00011000");
    (0x6C * 16 + 6, bin "00011000");
    (0x6C * 16 + 7, bin "00011000");
    (0x6C * 16 + 8, bin "00011000");
    (0x6C * 16 + 9, bin "00011000");
    (0x6C * 16 + 10, bin "00111100");
    (* o (0x6F) *)
    (0x6F * 16 + 4, bin "00111100");
    (0x6F * 16 + 5, bin "01100110");
    (0x6F * 16 + 6, bin "11000011");
    (0x6F * 16 + 7, bin "11000011");
    (0x6F * 16 + 8, bin "11000011");
    (0x6F * 16 + 9, bin "01100110");
    (0x6F * 16 + 10, bin "00111100")
  ].

(** Running a list of assignment statements in order; the first
    exception ends the run. *)
Fixpoint exec (l : list (Z * Z)) (b : ByteArray.t) : result ByteArray.t :=
  match l with
  | [] => Ok b
  | (i, v) :: l' => b' ← ByteArray.setitem b i v; exec l' b'
  end.

(** The buffer the script holds when it reaches line 59. *)
Definition font_data : ByteArray.t := from_ok [] build.

(** The populated rows as the format description lists them: code
    point, first row, and the row values from that row on. *)
Definition glyph_table : list (Z * Z * list Z) :=
  [ (0x41, 2, [0x3C; 0x66; 0xC3; 0xC3; 0xFF; 0xC3; 0xC3; 0xC3]);
    (0x48, 2, [0xC3; 0xC3; 0xC3; 0xFF; 0xC3; 0xC3; 0xC3; 0xC3]);
    (0x65, 4, [0x3C; 0x66; 0xFF; 0xC0; 0xC0; 0x66; 0x3C]);
    (0x6C, 1, [0x38; 0x18; 0x18; 0x18; 0x18; 0x18; 0x18; 0x18; 0x18; 0x3C]);
    (0x6F, 4, [0x3C; 0x66; 0xC3; 0xC3; 0xC3; 0x66; 0x3C]) ].

(** The populated row ranges: code point, first and last row. *)
Definition populated_rows : list (Z * Z * Z) :=
  [ (0x41, 2, 9); (0x48, 2, 9); (0x65, 4, 10); (0x6C, 1, 10); (0x6F, 4, 10) ].

(** Offset [i] is row [row] of a populated glyph, with [row] inside
    that glyph's populated range. *)
Definition populated_offset (i : Z) : Prop :=
  Exists (λ '(c, lo, hi), c * 16 + lo ≤ i ≤ c * 16 + hi) populated_rows.

(** Every index is inside a buffer of [n] items, written without
    counting from the end, and every value is a byte. *)
Definition valid (n : Z) (l : list (Z * Z)) : Prop :=
  Forall (λ '(i, v), 0 ≤ i < n ∧ 0 ≤ v < 256) l.

(** The stores of [l] on [b], without the checks. *)
Definition stores (l : list (Z * Z)) (b : ByteArray.t) : ByteArray.t :=
  foldl (λ b '(i, v), <[Z.to_nat i := v]> b) b l.

(** Reading the completed buffer at the rows of one table entry. *)
Definition rows_at (buf : ByteArray.t) (c r0 : Z) (n : nat) : list (option Z) :=
  (λ k : nat, ByteArray.get buf (c * 16 + (r0 + Z.of_nat k))) <$> seq 0 n.

(** The item an index addresses in a buffer of [n] items: a negative
    index counts from the end. *)
Definition norm_index (n i : Z) : Z := if i <? 0 then i + n else i.

(** Every index addresses an item of a buffer of [n] items, from the
    front or from the end, and every value is a byte. *)
Definition in_range (n : Z) (l : list (Z * Z)) : Prop :=
  Forall (λ x, - n ≤ x.1 < n ∧ 0 ≤ x.2 < 256) l.

(** The same assignments with every index written from the front. *)
Definition normalize (n : Z) (l : list (Z * Z)) : list (Z * Z) :=
  (λ x, (norm_index n x.1, x.2)) <$> l.

(** [populated_offset] as a test. *)
Definition populatedb (i : Z) : bool :=
  existsb (λ '(c, lo, hi), (c * 16 + lo <=? i) && (i <=? c * 16 + hi))
          populated_rows.

(** The byte at [i] exists and is not 0. *)
Definition nonzero_at (buf : ByteArray.t) (i : Z) : bool :=
  match ByteArray.get buf i with
  | Some v => negb (v =? 0)
  | None => false
  end.

(** ** The process and its environment

    What the script can observe and change.  [fs] is the file tree
    below the working directory as path resolution shows it: what each
    relative path leads to, links followed.  What the tree does not
    show is given by the environment:
    - [aliases]: the other paths that lead to the same file as a path
      (hard links to it, the paths behind symbolic links);
    - [refusal]: the exception with which the platform refuses to open
      a file in a directory that exists, for a cause outside the tree
      (no search permission, a read-only file system, a loop of
      symbolic links, ...); [None] when there is no such cause;
    - [create_writable]: whether a file the process creates can be
      opened for writing afterwards (the file-creation mask decides);
    - [quota]: the number of bytes the volume accepts when bytes are
      stored before it reports that it is full ([None]: no limit); it
      stands for every failure to store them;
    - [buffer_size]: the size of the buffer of a file opened for
      writing;
    - [stdout_state]: whether text sent to the standard output arrives.
    [pending] and [unflushed] belong to the process: the bytes written
    to an open file, and the lines printed, that are still in a buffer.
    [trace] records the calls made so far. *)

Inductive node : Type :=
  | Dir (writable : bool)
  | File (writable : bool) (content : list Z).

Inductive event : Type :=
  | EvOpen (path : string)
  | EvWrite (path : string) (data : list Z)
  | EvClose (path : string)
  | EvPrint (line : string).

(** The standard output takes the text; or the write to it fails and
    [print] raises; or the text is buffered and is lost when the buffer
    is flushed as the interpreter exits. *)
Inductive stream_state : Type :=
  | Writable
  | FailsAtWrite (e : exn)
  | FailsAtFlush.

Record World : Type := mkWorld {
  fs : gmap string node;
  aliases : gmap string (list string);
  refusal : option exn;
  create_writable : bool;
  quota : option nat;
  buffer_size : nat;
  stdin : list string;
  stdout : list string;
  stdout_state : stream_state;
  stderr : list string;
  trace : list event;
  pending : gmap string (list Z);
  unflushed : list string;
}.

Definition set_fs (f : gmap string node → gmap string node) (w : World) : World :=
  mkWorld (f (fs w)) (aliases w) (refusal w) (create_writable w) (quota w)
          (buffer_size w) (stdin w) (stdout w) (stdout_state w) (stderr w)
          (trace w) (pending w) (unflushed w).

Definition log (e : event) (w : World) : World :=
  mkWorld (fs w) (aliases w) (refusal w) (create_writable w) (quota w)
          (buffer_size w) (stdin w) (stdout w) (stdout_state w) (stderr w)
          (trace w ++ [e]) (pending w) (unflushed w).

Definition put_stdout (line : string) (w : World) : World :=
  mkWorld (fs w) (aliases w) (refusal w) (create_writable w) (quota w)
          (buffer_size w) (stdin w) (stdout w ++ [line]) (stdout_state w)
          (stderr w) (trace w) (pending w) (unflushed w).

Definition put_stderr (lines : list string) (w : World) : World :=
  mkWorld (fs w) (aliases w) (refusal w) (create_writable w) (quota w)
          (buffer_size w) (stdin w) (stdout w) (stdout_state w)
          (stderr w ++ lines) (trace w) (pending w) (unflushed w).

Definition set_pending (f : gmap string (list Z) → gmap string (list Z))
    (w : World) : World :=
  mkWorld (fs w) (aliases w) (refusal w) (create_writable w) (quota w)
          (buffer_size w) (stdin w) (stdout w) (stdout_state w) (stderr w)
          (trace w) (f (pending w)) (unflushed w).

Definition set_unflushed (lines : list string) (w : World) : World :=
  mkWorld (fs w) (aliases w) (refusal w) (create_writable w) (quota w)
          (buffer_size w) (stdin w) (stdout w) (stdout_state w) (stderr w)
          (trace w) (pending w) lines.

(** The characters after the first slash of [l], if it has one. *)
Fixpoint after_slash (l : list ascii) : option (list ascii) :=
  match l with
  | [] => None
  | a :: l' => if Ascii.eqb a "/"%char then Some l' else after_slash l'
  end.

(** The directory part of a relative path: everything before the last
    slash, or the working directory when there is none. *)
Definition dirname (path : string) : string :=
  match after_slash (reverse (String.list_ascii_of_string path)) with
  | None => "."
  | Some d => String.string_of_list_ascii (reverse d)
  end.

(** Computations of the process: a result and the world after it. *)
Definition IO (A : Type) : Type := World → result A * World.

#[global] Instance IO_ret : MRet IO := λ A a w, (Ok a, w).

#[global] Instance IO_bind : MBind IO := λ A B k m w,
  match m w with
  | (Ok a, w') => k a w'
  | (Raise e, w') => (Raise e, w')
  end.

(** A computation without effects, such as the population phase. *)
Definition pure {A} (r : result A) : IO A := λ w, (r, w).

(** All the paths under which the file at [path] is known. *)
Definition names_of (w : World) (path : string) : list string :=
  path :: default [] (aliases w !! path).

(** The tree with the node [n] under each of [paths]. *)
Definition put_node (paths : list string) (n : node)
    (m : gmap string node) : gmap string node :=
  foldr (λ p, <[p := n]>) m paths.

(** Whether the file at [path] can be opened for writing once it has
    been opened with ['wb']: an existing file keeps its mode, a new one
    gets the mode the environment gives to created files. *)
Definition file_mode (w : World) (path : string) : bool :=
  match fs w !! path with
  | Some (File fw _) => fw
  | _ => create_writable w
  end.

(** The world after [path] has been opened with ['wb']: the file is
    there, empty, under all its names, and its buffer is empty. *)
Definition opened (path : string) (w : World) : World :=
  set_pending <[path := []]>
    (set_fs (put_node (names_of w path) (File (file_mode w path) [])) w).

(** [open(path, 'wb')]: the directory must exist and be a directory and
    the platform must not refuse; an existing file must be writable and
    is truncated; a new file needs a writable directory.  The handle is
    the path. *)
Definition open_wb (path : string) : IO string := λ w,
  let w := log (EvOpen path) w in
  match fs w !! dirname path with
  | None => (Raise FileNotFoundError, w)
  | Some (File _ _) => (Raise NotADirectoryError, w)
  | Some (Dir dw) =>
      match refusal w with
      | Some e => (Raise e, w)
      | None =>
          match fs w !! path with
          | Some (Dir _) => (Raise IsADirectoryError, w)
          | Some (File fw _) =>
              if fw then (Ok path, opened path w)
              else (Raise PermissionError, w)
          | None =>
              if dw then (Ok path, opened path w)
              else (Raise PermissionError, w)
          end
      end
  end.

(** Storing [bytes] at the end of the open file [f]: when the volume
    accepts fewer bytes than that, those are stored and the call raises.
    A file that has left the tree takes the bytes unseen. *)
Definition commit (f : string) (bytes : list Z) : IO unit := λ w,
  match fs w !! f with
  | Some (File fw c) =>
      let store c' := set_fs (put_node (names_of w f) (File fw c')) w in
      match quota w with
      | Some k =>
          if (k <? length bytes)%nat
          then (Raise NoSpaceError, store (c ++ take k bytes))
          else (Ok (), store (c ++ bytes))
      | None => (Ok (), store (c ++ bytes))
      end
  | _ => (Ok (), w)
  end.

(** [f.write(data)]: data that fits the file's buffer waits there;
    otherwise the buffer and the data are stored at once.  Returns the
    number of bytes taken; writing to a file that is not open raises
    [ValueError]. *)
Definition write (f : string) (data : list Z) : IO Z := λ w,
  let w := log (EvWrite f data) w in
  match pending w !! f with
  | None => (Raise ValueError, w)
  | Some buf =>
      if (length buf + length data <=? buffer_size w)%nat
      then (Ok (ByteArray.len data), set_pending <[f := buf ++ data]> w)
      else
        match commit f (buf ++ data) (set_pending <[f := []]> w) with
        | (Ok _, w') => (Ok (ByteArray.len data), w')
        | (Raise e, w') => (Raise e, w')
        end
  end.

(** [f.close()]: what waits in the buffer is stored, and the file is
    closed whether that went well or not; closing a file that is not
    open does nothing. *)
Definition close (f : string) : IO unit := λ w,
  let w := log (EvClose f) w in
  match pending w !! f with
  | None => (Ok (), w)
  | Some buf => commit f buf (set_pending (delete f) w)
  end.

(** [with open(path, 'wb') as f: body]: when [open] raises, the body is
    not run; otherwise the file is closed however the body ends.  An
    exception of the close is raised; otherwise one of the body is
    raised again after the close. *)
Definition with_open {A} (path : string) (body : string → IO A) : IO A := λ w,
  match open_wb path w with
  | (Raise e, w1) => (Raise e, w1)
  | (Ok f, w1) =>
      let '(r, w2) := body f w1 in
      match close f w2 with
      | (Ok _, w3) => (r, w3)
      | (Raise e, w3) => (Raise e, w3)
      end
  end.

(** [print(line)] to the standard output, in each of its states. *)
Definition print (line : string) : IO unit := λ w,
  let w := log (EvPrint line) w in
  match stdout_state w with
  | Writable => (Ok (), put_stdout line w)
  | FailsAtWrite e => (Raise e, w)
  | FailsAtFlush => (Ok (), set_unflushed (unflushed w ++ [line]) w)
  end.

Definition out_path : string := "assets/default_font.bin".
Definition message : string := "Created default_font.bin".

(** Lines 59-60. *)
Definition save (data : ByteArray.t) : IO Z :=
  with_open out_path (λ f, write f data).

(** The whole script, lines 7-62. *)
Definition script : IO unit :=
  font_data ← pure build;
  _ ← save font_data;
  print message.

Definition exn_name (e : exn) : string :=
  match e with
  | IndexError => "IndexError"
  | ValueError => "ValueError"
  | FileNotFoundError => "FileNotFoundError"
  | NotADirectoryError => "NotADirectoryError"
  | IsADirectoryError => "IsADirectoryError"
  | PermissionError => "PermissionError"
  | NoSpaceError => "OSError"
  | OSError => "OSError"
  | BrokenPipeError => "BrokenPipeError"
  end.

(** The interpreter's report of an exception nobody caught. *)
Definition traceback (e : exn) : list string :=
  ["Traceback (most recent call last):"; exn_name e].

(** The interpreter's report when the standard output cannot be flushed
    as it exits. *)
Definition flush_report : list string :=
  ["Exception ignored on flushing sys.stdout"].

(** The end of the process: lines still in the buffer of the standard
    output cannot be delivered; the interpreter reports that and the
    exit status is 120. *)
Definition finish (status : Z) (w : World) : Z * World :=
  match unflushed w with
  | [] => (status, w)
  | _ :: _ => (120, put_stderr flush_report (set_unflushed [] w))
  end.

(** Running the script as a process: exit status and final world.  The
    process starts with nothing in the buffer of the standard output.
    An exception that reaches the top level is reported on the standard
    error stream and the status is 1. *)
Definition main (w : World) : Z * World :=
  match script (set_unflushed [] w) with
  | (Ok _, w') => finish 0 w'
  | (Raise e, w') => finish 1 (put_stderr (traceback e) w')
  end.

(** The bytes of the file at [path], when there is one. *)
Definition content_at (w : World) (path : string) : option (list Z) :=
  match fs w !! path with
  | Some (File _ c) => Some c
  | _ => None
  end.



(** The volume is too small for [data]. *)
Definition short (w : World) (data : list Z) : bool :=
  match quota w with
  | Some k => (k <? length data)%nat
  | None => false
  end.

(** The part of [data] the volume accepts. *)
Definition kept (w : World) (data : list Z) : list Z :=
  match quota w with
  | Some k => take k data
  | None => data
  end.

(** The tree after [c] has been stored in the output file. *)
Definition written (w : World) (c : list Z) : gmap string node :=
  put_node (names_of w out_path) (File (file_mode w out_path) c) (fs w).

(** The world a process leaves when it started in [w]: the tree [m],
    the lines [out] and [err] added to the two output streams, the calls
    [evs] added to the trace, the file buffers [pd], and nothing left in
    the buffer of the standard output. *)
Definition final (w : World) (m : gmap string node) (out err : list string)
    (evs : list event) (pd : gmap string (list Z)) : World :=
  mkWorld m (aliases w) (refusal w) (create_writable w) (quota w)
          (buffer_size w) (stdin w) (stdout w ++ out) (stdout_state w)
          (stderr w ++ err) (trace w ++ evs) pd [].

(** The calls of a run that got as far as the close, and of one that
    got as far as the print. *)
Definition calls_saved : list event :=
  [EvOpen out_path; EvWrite out_path font_data; EvClose out_path].

Definition calls_all : list event :=
  [EvOpen out_path; EvWrite out_path font_data; EvClose out_path;
   EvPrint message].

(** Sample environments: a tree and a limit, everything else in order;
    and variations of one of them. *)
Definition world_of (m : gmap string node) (q : option nat) : World :=
  mkWorld m ∅ None true q (Z.to_nat 8192) [] [] Writable [] [] ∅ [].



Definition world_full : World :=
  world_of {[ "." := Dir true; "assets" := Dir true ]} (Some 100%nat).

Definition world_stale : World :=
  world_of {[ "." := Dir true; "assets" := Dir true;
              "assets/default_font.bin" := File true [1; 2; 3] ]} None.


Definition world_readonly : World :=
  world_of {[ "." := Dir true; "assets" := Dir false ]} None.

(** The volume is mounted read-only. *)
Definition world_refused : World :=
  mkWorld {[ "." := Dir true; "assets" := Dir true ]} ∅ (Some OSError) true
          None (Z.to_nat 8192) [] [] Writable [] [] ∅ [].

(** Created files are read-only. *)
Definition world_masked : World :=
  mkWorld {[ "." := Dir true; "assets" := Dir true ]} ∅ None false
          None (Z.to_nat 8192) [] [] Writable [] [] ∅ [].

(** The output file has a second name. *)
Definition world_linked : World :=
  mkWorld {[ "." := Dir true; "assets" := Dir true;
             "assets/default_font.bin" := File true [1; 2; 3];
             "backup.bin" := File true [1; 2; 3] ]}
          {[ "assets/default_font.bin" := ["backup.bin"] ]} None true
          None (Z.to_nat 8192) [] [] Writable [] [] ∅ [].

(** The standard output is a pipe nobody reads. *)
Definition world_piped : World :=
  mkWorld {[ "." := Dir true; "assets" := Dir true ]} ∅ None true
          None (Z.to_nat 8192) [] [] FailsAtFlush [] [] ∅ [].

(** The standard output fails at once. *)
Definition world_closed : World :=
  mkWorld {[ "." := Dir true; "assets" := Dir true ]} ∅ None true
          None (Z.to_nat 8192) [] [] (FailsAtWrite BrokenPipeError) [] [] ∅ [].

(** A small buffer and a small volume. *)
Definition world_unbuffered : World :=
  mkWorld {[ "." := Dir true; "assets" := Dir true ]} ∅ None true
          (Some 100%nat) 512 [] [] Writable [] [] ∅ [].

(** ** Proof automation *)

(** Replaces every binary literal of the goal by its value. *)
Ltac eval_literals :=
  repeat match goal with
         | |- context [bin ?s] =>
             let v := eval vm_compute in (bin s) in change (bin s) with v
         end.

(** Proves [Forall P l] for an explicit list [l], item by item. *)
Ltac each_item tac :=
  repeat (apply Forall_cons; split; [tac|]); apply Forall_nil_2.

(** Reduces the fields of worlds that are given field by field, and
    nothing else. *)
Ltac fields :=
  cbn [fs aliases refusal create_writable quota buffer_size stdin stdout
       stdout_state stderr trace pending unflushed fst snd].

(** * Properties *)

(** ** Item assignment *)

Section setitem.

Import ByteArray.

Lemma setitem_ok (b : t) (i v : Z) :
  0 ≤ i < len b → 0 ≤ v < 256 →
  setitem b i v = Ok (<[Z.to_nat i := v]> b).
Proof.
  intros Hi Hv. unfold setitem.
  destruct (Z.ltb_spec i 0); [lia|].
  destruct (Z.ltb_spec i 0), (Z.leb_spec (len b) i); try lia.
  destruct (Z.ltb_spec v 0), (Z.leb_spec 256 v); try lia.
  reflexivity.
Qed.

(** A successful assignment replaces one item of the buffer: the one
    at the index, counted from the end when the index is negative. *)
Lemma setitem_inv (b b' : t) (i v : Z) :
  setitem b i v = Ok b' →
  ∃ j : nat, (j < length b)%nat ∧ 0 ≤ v < 256 ∧ b' = <[j := v]> b
             ∧ Z.of_nat j = if i <? 0 then i + len b else i.
Proof.
  unfold setitem. set (j := if i <? 0 then i + len b else i).
  destruct (Z.ltb_spec j 0), (Z.leb_spec (len b) j); simpl; try discriminate.
  destruct (Z.ltb_spec v 0), (Z.leb_spec 256 v); simpl; try discriminate.
  intros [= <-]. exists (Z.to_nat j). unfold len in *.
  repeat split; try lia.
Qed.

Lemma setitem_length (b b' : t) (i v : Z) :
  setitem b i v = Ok b' → length b' = length b.
Proof.
  intros (j & _ & _ & -> & _)%setitem_inv. apply length_insert.
Qed.

Lemma setitem_wf (b b' : t) (i v : Z) :
  wf b → setitem b i v = Ok b' → wf b'.
Proof.
  intros Hb (j & _ & Hv & -> & _)%setitem_inv.
  unfold wf. apply Forall_insert; assumption.
Qed.

Lemma len_insert (b : t) (j : nat) (v : Z) : len (<[j := v]> b) = len b.
Proof. unfold len. by rewrite length_insert. Qed.

Lemma make_length (n : Z) : length (make n) = Z.to_nat n.
Proof. apply length_replicate. Qed.

Lemma make_lookup (n : Z) (i : nat) :
  (i < Z.to_nat n)%nat → make n !! i = Some 0.
Proof. intros Hi. apply lookup_replicate_2, Hi. Qed.

Lemma make_wf (n : Z) : wf (make n).
Proof. apply Forall_replicate. lia. Qed.

End setitem.

(** ** Lists of assignments *)

Lemma stores_cons (i v : Z) (l : list (Z * Z)) (b : ByteArray.t) :
  stores ((i, v) :: l) b = stores l (<[Z.to_nat i := v]> b).
Proof. reflexivity. Qed.

Lemma stores_length (l : list (Z * Z)) (b : ByteArray.t) :
  length (stores l b) = length b.
Proof.
  revert b. induction l as [|[i v] l IH]; intros b; [done|].
  rewrite stores_cons, IH. apply length_insert.
Qed.

Lemma exec_valid (l : list (Z * Z)) (b : ByteArray.t) :
  valid (ByteArray.len b) l → exec l b = Ok (stores l b).
Proof.
  revert b. induction l as [|[i v] l IH]; intros b Hl; [done|].
  apply Forall_cons in Hl as [[Hi Hv] Hl].
  rewrite stores_cons. simpl. rewrite setitem_ok by assumption. simpl. apply IH.
  rewrite len_insert. exact Hl.
Qed.


Lemma exec_wf (l : list (Z * Z)) (b b' : ByteArray.t) :
  ByteArray.wf b → exec l b = Ok b' → ByteArray.wf b'.
Proof.
  revert b. induction l as [|[i v] l IH]; intros b Hb; simpl.
  - by intros [= <-].
  - destruct (ByteArray.setitem b i v) as [b1|e] eqn:E; simpl; [|done].
    apply IH. eapply setitem_wf; eassumption.
Qed.

(** An item no store of [l] aims at keeps its value. *)
Lemma stores_lookup_other (l : list (Z * Z)) (b : ByteArray.t) (k : Z) :
  0 ≤ k → valid (ByteArray.len b) l → k ∉ l.*1 →
  stores l b !! Z.to_nat k = b !! Z.to_nat k.
Proof.
  intros Hk. revert b. induction l as [|[i v] l IH]; intros b Hl Hn; [done|].
  apply Forall_cons in Hl as [[Hi Hv] Hl].
  apply not_elem_of_cons in Hn as [Hne Hn]. simpl in Hne.
  rewrite stores_cons, IH; [| |exact Hn].
  - apply list_lookup_insert_ne. lia.
  - rewrite len_insert. exact Hl.
Qed.

(** Stores at different places can be exchanged, so stores at pairwise
    different places can be done in any order. *)
Lemma stores_perm (l l' : list (Z * Z)) :
  l ≡ₚ l' → ∀ b, valid (ByteArray.len b) l → NoDup l.*1 →
  stores l b = stores l' b.
Proof.
  induction 1 as [|[i v] l l' Hp IH|[i v] [j u] l|l1 l2 l3 Hp1 IH1 Hp2 IH2];
    intros b Hv Hd.
  - done.
  - rewrite !stores_cons.
    apply Forall_cons in Hv as [_ Hv]. apply NoDup_cons in Hd as [_ Hd].
    apply IH; [|exact Hd].
    rewrite len_insert. exact Hv.
  - rewrite !stores_cons. f_equal.
    apply Forall_cons in Hv as [[Hj _] Hv]. apply Forall_cons in Hv as [[Hi _] _].
    apply NoDup_cons in Hd as [Hne _]. apply not_elem_of_cons in Hne as [Hne _].
    simpl in Hne. apply list_insert_insert_ne. lia.
  - rewrite IH1 by assumption. apply IH2.
    + unfold valid. rewrite <- Hp1. exact Hv.
    + rewrite <- Hp1. exact Hd.
Qed.

Lemma exec_perm (l l' : list (Z * Z)) (b : ByteArray.t) :
  l ≡ₚ l' → valid (ByteArray.len b) l → NoDup l.*1 → exec l b = exec l' b.
Proof.
  intros Hp Hv Hd.
  rewrite !exec_valid; [|unfold valid; rewrite <- Hp; exact Hv|exact Hv].
  f_equal. apply stores_perm; assumption.
Qed.

(** ** The population phase *)

Lemma populate_exec (b : ByteArray.t) : populate b = exec assignments b.
Proof. reflexivity. Qed.

Lemma build_exec : build = exec assignments (bytearray (256 * 16)).
Proof. apply populate_exec. Qed.

Lemma assignments_valid : valid 4096 assignments.
Proof. unfold valid, assignments. each_item ltac:(eval_literals; lia). Qed.

Lemma assignments_NoDup : NoDup assignments.*1.
Proof. apply (bool_decide_unpack (NoDup assignments.*1)). vm_compute. exact I. Qed.

Lemma assignments_populated :
  Forall (λ '(i, _), populated_offset i) assignments.
Proof.
  unfold assignments.
  each_item ltac:(unfold populated_offset, populated_rows;
                  rewrite !Exists_cons, Exists_nil; lia).
Qed.

Lemma build_ok : build = Ok font_data.
Proof. vm_compute. reflexivity. Qed.

Lemma Ok_inj {A} (a b : A) : Ok a = Ok b → a = b.
Proof. by intros [= ->]. Qed.

Lemma font_data_stores : font_data = stores assignments (bytearray (256 * 16)).
Proof.
  apply Ok_inj. rewrite <- build_ok, build_exec.
  apply exec_valid, assignments_valid.
Qed.

Lemma font_data_length : length font_data = 4096%nat.
Proof. rewrite font_data_stores, stores_length. apply make_length. Qed.

(** Every item of the completed buffer is a byte. *)
Lemma font_data_wf : ByteArray.wf font_data.
Proof.
  eapply exec_wf; [apply (make_wf (256 * 16))|].
  rewrite <- build_exec. apply build_ok.
Qed.

Lemma rows_at_lookup (buf : ByteArray.t) (c r0 : Z) (vals : list Z) (k : nat) (v : Z) :
  rows_at buf c r0 (length vals) = Some <$> vals →
  vals !! k = Some v →
  ByteArray.get buf (c * 16 + (r0 + Z.of_nat k)) = Some v.
Proof.
  intros Hrows Hk.
  assert (Hlt : (k < length vals)%nat) by (eapply lookup_lt_Some, Hk).
  assert (H : rows_at buf c r0 (length vals) !! k = (Some <$> vals) !! k)
    by (by rewrite Hrows).
  unfold rows_at in H.
  rewrite !list_lookup_fmap, Hk, lookup_seq_lt in H by exact Hlt.
  simpl in H. by apply (inj Some) in H.
Qed.

Lemma font_data_rows :
  Forall (λ '(c, r0, vals), rows_at font_data c r0 (length vals) = Some <$> vals)
         glyph_table.
Proof. unfold glyph_table. each_item ltac:(vm_compute; reflexivity). Qed.

(** An offset that no assignment aims at still holds the zero it was
    allocated with. *)
Lemma font_data_untouched (i : Z) :
  0 ≤ i < 4096 → i ∉ assignments.*1 → ByteArray.get font_data i = Some 0.
Proof.
  intros Hi Hn. unfold ByteArray.get.
  destruct (Z.ltb_spec i 0); [lia|].
  rewrite font_data_stores, stores_lookup_other;
    [|lia|apply assignments_valid|exact Hn].
  apply make_lookup. lia.
Qed.

Lemma assigned_populated (i : Z) : i ∈ assignments.*1 → populated_offset i.
Proof.
  intros ([i' v] & -> & Hin)%list_elem_of_fmap.
  pose proof assignments_populated as H.
  rewrite Forall_forall in H. apply (H _ Hin).
Qed.

(** ** The population phase: claims *)

(** C1.  Every row listed in the format table is in the generated
    buffer at offset [code_point * 16 + row]: for a table entry with
    code point [c], first row [r0] and values [vals], the byte at
    [c * 16 + (r0 + k)] is the [k]-th value.  The generator builds
    exactly one buffer, and the statement is about that one. *)
Theorem C1_table_rows_at_offsets
    (c r0 : Z) (vals : list Z) (k : nat) (v : Z) :
  (c, r0, vals) ∈ glyph_table →
  vals !! k = Some v →
  ∃ buf, build = Ok buf
         ∧ (∀ buf', build = Ok buf' → buf' = buf)
         ∧ ByteArray.get buf (c * 16 + (r0 + Z.of_nat k)) = Some v.
Proof.
  intros Hin Hk. exists font_data. split; [apply build_ok|]. split.
  - intros buf' Hb. apply Ok_inj. by rewrite <- Hb, build_ok.
  - pose proof font_data_rows as H. rewrite Forall_forall in H.
    apply (rows_at_lookup _ _ _ vals); [apply (H _ Hin)|exact Hk].
Qed.

Lemma C1_table_rows_at_offsets_witness :
  ∃ buf, build = Ok buf
         ∧ (∀ buf', build = Ok buf' → buf' = buf)
         ∧ ByteArray.get buf (0x6C * 16 + (1 + Z.of_nat 9)) = Some 0x3C.
Proof.
  apply (C1_table_rows_at_offsets 0x6C 1
           [0x38; 0x18; 0x18; 0x18; 0x18; 0x18; 0x18; 0x18; 0x18; 0x3C]
           9%nat 0x3C).
  - unfold glyph_table. do 3 apply list_elem_of_further. apply list_elem_of_here.
  - reflexivity.
Defined.

(** C3.  Every offset below 4096 that is not a populated row offset of
    one of the five glyphs holds 0 in the completed buffer. *)
Theorem C3_unpopulated_offsets_zero (i : Z) :
  0 ≤ i < 4096 →
  ¬ populated_offset i →
  ∃ buf, build = Ok buf ∧ ByteArray.get buf i = Some 0.
Proof.
  intros Hi Hn. exists font_data. split; [apply build_ok|].
  apply font_data_untouched; [exact Hi|].
  intros Hin. apply Hn, assigned_populated, Hin.
Qed.

Lemma C3_unpopulated_offsets_zero_witness :
  ∃ buf, build = Ok buf ∧ ByteArray.get buf (0x41 * 16 + 10) = Some 0.
Proof.
  apply (C3_unpopulated_offsets_zero (0x41 * 16 + 10)).
  - lia.
  - unfold populated_offset, populated_rows.
    rewrite !Exists_cons, Exists_nil. lia.
Defined.

(** C4.  The sample bytes of the completed buffer: one row of each of
    the five glyphs, the very first byte, and the first row of 'A'. *)
Theorem C4_sample_bytes :
  ∃ buf, build = Ok buf
         ∧ ByteArray.get buf (0x41 * 16 + 4) = Some 0xC3
         ∧ ByteArray.get buf (0x48 * 16 + 5) = Some 0xFF
         ∧ ByteArray.get buf (0x65 * 16 + 7) = Some 0xC0
         ∧ ByteArray.get buf (0x6C * 16 + 10) = Some 0x3C
         ∧ ByteArray.get buf (0x6F * 16 + 4) = Some 0x3C
         ∧ ByteArray.get buf 0 = Some 0x00
         ∧ ByteArray.get buf (0x41 * 16 + 2) = Some 0x3C.
Proof.
  exists font_data. split; [apply build_ok|].
  vm_compute. repeat split.
Qed.

(** C9, as amended.  There are 40 assignments; each one aims at an
    offset between [0x41*16+2 = 1042] and [0x6F*16+10 = 1786], below
    4096, with a value in 0..255; so every assignment of the population
    phase succeeds, whatever prefix of the phase has run. *)
Theorem C9_assignments_in_bounds :
  length assignments = 40%nat
  ∧ 0x41 * 16 + 2 = 1042 ∧ 0x6F * 16 + 10 = 1786
  ∧ Forall (λ '(i, v), 0x41 * 16 + 2 ≤ i ≤ 0x6F * 16 + 10
                       ∧ i < 4096 ∧ 0 ≤ v ≤ 255) assignments
  ∧ (∀ n, is_ok (exec (take n assignments) (bytearray (256 * 16))) = true)
  ∧ is_ok (populate (bytearray (256 * 16))) = true.
Proof.
  split; [reflexivity|]. split; [reflexivity|]. split; [reflexivity|].
  split; [|split].
  - unfold assignments. each_item ltac:(eval_literals; lia).
  - intros n. rewrite exec_valid; [reflexivity|].
    apply Forall_take, assignments_valid.
  - rewrite populate_exec, exec_valid; [reflexivity|apply assignments_valid].
Qed.

(** C9 as stated fails: the count is 40, not 41; [0x6C*16+10] is 1738,
    not 1786; and the rows of 'o' lie above [0x6C*16+10]. *)
Lemma C9_counterexample :
  length assignments ≠ 41%nat
  ∧ 0x6C * 16 + 10 ≠ 1786
  ∧ ¬ Forall (λ '(i, _), 0x41 * 16 + 2 ≤ i ≤ 0x6C * 16 + 10) assignments.
Proof.
  split; [discriminate|]. split; [lia|].
  intros H. rewrite Forall_forall in H.
  assert (Hin : (0x6F * 16 + 4, bin "00111100") ∈ assignments).
  { unfold assignments. do 33 apply list_elem_of_further. apply list_elem_of_here. }
  specialize (H _ Hin). simpl in H. lia.
Qed.

(** C10, as amended.  The 40 assignments aim at pairwise different
    offsets, and running them in any order gives the buffer the script
    builds. *)
Theorem C10_assignments_commute (l : list (Z * Z)) :
  assignments ≡ₚ l →
  length assignments = 40%nat
  ∧ NoDup assignments.*1
  ∧ exec l (bytearray (256 * 16)) = build.
Proof.
  intros Hp. split; [reflexivity|]. split; [apply assignments_NoDup|].
  rewrite build_exec. symmetry.
  apply exec_perm; [exact Hp|apply assignments_valid|apply assignments_NoDup].
Qed.

Lemma C10_assignments_commute_witness :
  length assignments = 40%nat
  ∧ NoDup assignments.*1
  ∧ exec (reverse assignments) (bytearray (256 * 16)) = build.
Proof.
  apply (C10_assignments_commute (reverse assignments)).
  symmetry. apply reverse_Permutation.
Defined.

(** C10 as stated fails: the script has 40 assignments, not 41. *)
Lemma C10_counterexample : ¬ (length assignments = 41%nat).
Proof. discriminate. Qed.

(** ** Item assignment and assignment lists in general *)

Lemma setitem_ok_iff (b : ByteArray.t) (i v : Z) :
  is_ok (ByteArray.setitem b i v) = true
  ↔ - ByteArray.len b ≤ i < ByteArray.len b ∧ 0 ≤ v < 256.
Proof.
  unfold ByteArray.setitem.
  destruct (Z.ltb_spec i 0);
    (match goal with
     | |- context [(?j <? 0) || (?n <=? ?j)] =>
         destruct (Z.ltb_spec j 0), (Z.leb_spec n j)
     end);
    simpl; try (split; [discriminate|lia]);
    destruct (Z.ltb_spec v 0), (Z.leb_spec 256 v); simpl;
    (split; [first [discriminate | lia]|first [reflexivity | lia]]).
Qed.

Lemma setitem_in_range (b : ByteArray.t) (i v : Z) :
  - ByteArray.len b ≤ i < ByteArray.len b → 0 ≤ v < 256 →
  ByteArray.setitem b i v
  = Ok (<[Z.to_nat (norm_index (ByteArray.len b) i) := v]> b).
Proof.
  intros Hi Hv. unfold ByteArray.setitem, norm_index.
  destruct (Z.ltb_spec i 0);
    (match goal with
     | |- context [(?j <? 0) || (?n <=? ?j)] =>
         destruct (Z.ltb_spec j 0), (Z.leb_spec n j)
     end); try lia;
    destruct (Z.ltb_spec v 0), (Z.leb_spec 256 v); try lia; reflexivity.
Qed.

Lemma setitem_raises (b : ByteArray.t) (i v : Z) (e : exn) :
  ByteArray.setitem b i v = Raise e → e = IndexError ∨ e = ValueError.
Proof.
  unfold ByteArray.setitem. repeat case_match; intros [= <-]; auto.
Qed.

Lemma normalize_cons (n : Z) (x : Z * Z) (l : list (Z * Z)) :
  normalize n (x :: l) = (norm_index n x.1, x.2) :: normalize n l.
Proof. reflexivity. Qed.

Lemma normalize_fst (n : Z) (l : list (Z * Z)) :
  (normalize n l).*1 = norm_index n <$> l.*1.
Proof.
  unfold normalize. rewrite <- !list_fmap_compose. reflexivity.
Qed.

Lemma normalize_valid (n : Z) (l : list (Z * Z)) :
  in_range n l → valid n (normalize n l).
Proof.
  unfold in_range, valid. induction 1 as [|[i v] l [Hi Hv] _ IH].
  - apply Forall_nil_2.
  - rewrite normalize_cons. apply Forall_cons. split; [|exact IH].
    simpl in *. unfold norm_index. destruct (Z.ltb_spec i 0); lia.
Qed.

(** A list of assignments that all address the buffer runs through, and
    does what the same list with front indices does without checks. *)
Lemma exec_in_range (l : list (Z * Z)) (b : ByteArray.t) :
  in_range (ByteArray.len b) l →
  exec l b = Ok (stores (normalize (ByteArray.len b) l) b).
Proof.
  revert b. induction l as [|[i v] l IH]; intros b Hl; [reflexivity|].
  apply Forall_cons in Hl as [[Hi Hv] Hl]. simpl in Hi, Hv.
  rewrite normalize_cons, stores_cons. simpl.
  rewrite setitem_in_range by assumption. simpl.
  rewrite <- (len_insert b (Z.to_nat (norm_index (ByteArray.len b) i)) v) at 2.
  apply IH. rewrite len_insert. exact Hl.
Qed.

Lemma populatedb_spec (i : Z) : populatedb i = true ↔ populated_offset i.
Proof.
  unfold populatedb, populated_offset, populated_rows. simpl.
  rewrite !Exists_cons, Exists_nil, !orb_true_iff, !andb_true_iff, !Z.leb_le.
  intuition discriminate.
Qed.

Lemma nonzero_at_spec (buf : ByteArray.t) (i : Z) :
  nonzero_at buf i = true ↔ ∃ v, ByteArray.get buf i = Some v ∧ v ≠ 0.
Proof.
  unfold nonzero_at. destruct (ByteArray.get buf i) as [v|].
  - rewrite negb_true_iff, Z.eqb_neq. split.
    + intros Hv. by exists v.
    + by intros (v' & [= <-] & Hv).
  - split; [discriminate|]. by intros (v & [=] & _).
Qed.

Lemma font_data_nonzero_check :
  forallb (λ i, Bool.eqb (populatedb i) (nonzero_at font_data i))
          (seqZ 0 4096) = true.
Proof. vm_compute. reflexivity. Qed.

(** ** The population phase: further properties *)

(** X1.  In the completed buffer the bytes that are not 0 are exactly
    the populated rows of the five glyphs, and there are 40 of them. *)
Theorem X1_nonzero_iff_populated :
  ∃ buf, build = Ok buf
         ∧ (∀ i, 0 ≤ i < 4096 →
                 (populated_offset i
                  ↔ ∃ v, ByteArray.get buf i = Some v ∧ v ≠ 0))
         ∧ length (filter (λ i, nonzero_at buf i = true) (seqZ 0 4096))
           = 40%nat.
Proof.
  exists font_data. split; [apply build_ok|]. split.
  - intros i Hi. rewrite <- populatedb_spec, <- nonzero_at_spec.
    pose proof font_data_nonzero_check as H.
    rewrite forallb_forall in H.
    assert (Hin : In i (seqZ 0 4096)).
    { apply list_elem_of_In, elem_of_seqZ. lia. }
    apply H, eqb_prop in Hin. rewrite Hin. reflexivity.
  - vm_compute. reflexivity.
Qed.

(** X2.  Whatever list of assignments runs through on a buffer of
    bytes, the buffer it leaves is a buffer of bytes; the buffer the
    script writes is one. *)
Theorem X2_bytes_stay_bytes (l : list (Z * Z)) (b b' : ByteArray.t) :
  ByteArray.wf b → exec l b = Ok b' →
  ByteArray.wf b' ∧ ∃ buf, build = Ok buf ∧ ByteArray.wf buf.
Proof.
  intros Hb He. split; [exact (exec_wf _ _ _ Hb He)|].
  exists font_data. split; [apply build_ok|apply font_data_wf].
Qed.

Lemma X2_bytes_stay_bytes_witness :
  ByteArray.wf [255; 0; 7] ∧ ∃ buf, build = Ok buf ∧ ByteArray.wf buf.
Proof.
  apply (X2_bytes_stay_bytes [(0, 255); (-1, 7)] [1; 0; 3]).
  - unfold ByteArray.wf. each_item ltac:(lia).
  - reflexivity.
Defined.

(** X3.  An item assignment that goes through had an index inside the
    buffer, counted from the front or from the end, and a byte as value;
    afterwards the addressed item reads as that value, every other item
    reads as before, and the length is the same. *)
Theorem X3_setitem_then_get (b b' : ByteArray.t) (i v : Z) :
  ByteArray.setitem b i v = Ok b' →
  - ByteArray.len b ≤ i < ByteArray.len b
  ∧ 0 ≤ v < 256
  ∧ ByteArray.len b' = ByteArray.len b
  ∧ ByteArray.get b' (norm_index (ByteArray.len b) i) = Some v
  ∧ ∀ k, k ≠ norm_index (ByteArray.len b) i →
         ByteArray.get b' k = ByteArray.get b k.
Proof.
  intros H.
  assert (Hok : is_ok (ByteArray.setitem b i v) = true) by (by rewrite H).
  apply setitem_ok_iff in Hok as [Hi Hv].
  rewrite setitem_in_range in H by assumption. apply Ok_inj in H as <-.
  assert (Hn : 0 ≤ norm_index (ByteArray.len b) i < ByteArray.len b).
  { unfold norm_index. destruct (Z.ltb_spec i 0); lia. }
  split; [exact Hi|]. split; [exact Hv|]. split; [apply len_insert|]. split.
  - unfold ByteArray.get. destruct (Z.ltb_spec (norm_index (ByteArray.len b) i) 0);
      [lia|].
    apply list_lookup_insert_eq. unfold ByteArray.len in *. lia.
  - intros k Hk. unfold ByteArray.get. destruct (Z.ltb_spec k 0); [reflexivity|].
    apply list_lookup_insert_ne. unfold ByteArray.len in *. lia.
Qed.

Lemma X3_setitem_then_get_witness :
  - ByteArray.len [1; 2; 3] ≤ -1 < ByteArray.len [1; 2; 3]
  ∧ 0 ≤ 9 < 256
  ∧ ByteArray.len [1; 2; 9] = ByteArray.len [1; 2; 3]
  ∧ ByteArray.get [1; 2; 9] (norm_index (ByteArray.len [1; 2; 3]) (-1)) = Some 9
  ∧ ∀ k, k ≠ norm_index (ByteArray.len [1; 2; 3]) (-1) →
         ByteArray.get [1; 2; 9] k = ByteArray.get [1; 2; 3] k.
Proof. apply (X3_setitem_then_get [1; 2; 3] [1; 2; 9] (-1) 9). reflexivity. Defined.

(** X4.  A list of assignments runs through on a buffer exactly when
    every index addresses an item of the buffer, from the front or from
    the end, and every value is a byte; when it does not, the exception
    is [IndexError] or [ValueError], never an error of the system. *)
Theorem X4_exec_ok_iff (l : list (Z * Z)) (b : ByteArray.t) :
  (is_ok (exec l b) = true ↔ in_range (ByteArray.len b) l)
  ∧ ∀ e, exec l b = Raise e → e = IndexError ∨ e = ValueError.
Proof.
  split.
  - split.
    + revert b. induction l as [|[i v] l IH]; intros b H; [apply Forall_nil_2|].
      simpl in H.
      destruct (ByteArray.setitem b i v) as [b1|e] eqn:E; [|discriminate H].
      assert (Hok : is_ok (ByteArray.setitem b i v) = true) by (by rewrite E).
      apply setitem_ok_iff in Hok. apply Forall_cons. split; [exact Hok|].
      unfold ByteArray.len. rewrite <- (setitem_length _ _ _ _ E).
      apply IH, H.
    + intros H. rewrite exec_in_range by exact H. reflexivity.
  - revert b. induction l as [|[i v] l IH]; intros b e; [discriminate|].
    simpl. destruct (ByteArray.setitem b i v) as [b1|e1] eqn:E; simpl.
    + apply IH.
    + intros [= <-]. eapply setitem_raises, E.
Qed.

(** X5.  Assignments that all address the buffer and address pairwise
    different items can be run in any order: the result is the same. *)
Theorem X5_order_irrelevant (l l' : list (Z * Z)) (b : ByteArray.t) :
  l ≡ₚ l' →
  in_range (ByteArray.len b) l →
  NoDup (norm_index (ByteArray.len b) <$> l.*1) →
  exec l b = exec l' b.
Proof.
  intros Hp Hl Hd.
  assert (Hl' : in_range (ByteArray.len b) l').
  { unfold in_range. rewrite <- Hp. exact Hl. }
  rewrite !exec_in_range by assumption. f_equal.
  apply stores_perm.
  - unfold normalize. by apply fmap_Permutation.
  - apply normalize_valid, Hl.
  - rewrite normalize_fst. exact Hd.
Qed.

Lemma X5_order_irrelevant_witness :
  exec [(-1, 9); (0, 7)] [1; 2; 3] = exec [(0, 7); (-1, 9)] [1; 2; 3].
Proof.
  apply (X5_order_irrelevant [(-1, 9); (0, 7)] [(0, 7); (-1, 9)] [1; 2; 3]).
  - apply perm_swap.
  - unfold in_range, ByteArray.len. each_item ltac:(simpl; lia).
  - apply (bool_decide_unpack (NoDup [2; 0])). exact I.
Defined.

(** ** The process *)

(** From here on the completed buffer is used as a whole, never
    computed with. *)
#[local] Opaque font_data build.

Lemma dirname_out_path : dirname out_path = "assets".
Proof. reflexivity. Qed.

(** *** Trees *)

Lemma lookup_put_node_in (ps : list string) (n : node)
    (m : gmap string node) (q : string) :
  q ∈ ps → put_node ps n m !! q = Some n.
Proof.
  induction ps as [|p ps IH]; intros Hq; [by apply elem_of_nil in Hq|].
  simpl. destruct (decide (q = p)) as [->|Hne].
  - apply lookup_insert_eq.
  - rewrite lookup_insert_ne by congruence.
    apply elem_of_cons in Hq as [Hq|Hq]; [congruence|exact (IH Hq)].
Qed.

Lemma lookup_put_node_notin (ps : list string) (n : node)
    (m : gmap string node) (q : string) :
  q ∉ ps → put_node ps n m !! q = m !! q.
Proof.
  induction ps as [|p ps IH]; intros Hq; [reflexivity|].
  apply not_elem_of_cons in Hq as [Hne Hq]. simpl.
  rewrite lookup_insert_ne by congruence. exact (IH Hq).
Qed.

Lemma put_node_put_node (ps : list string) (n n' : node)
    (m : gmap string node) :
  put_node ps n (put_node ps n' m) = put_node ps n m.
Proof.
  apply map_eq. intros q. destruct (decide (q ∈ ps)) as [Hq|Hq].
  - rewrite !lookup_put_node_in by exact Hq. reflexivity.
  - rewrite !lookup_put_node_notin by exact Hq. reflexivity.
Qed.

Lemma names_of_head (w : World) (p : string) : p ∈ names_of w p.
Proof. apply elem_of_cons. by left. Qed.

(** *** Opening *)

Lemma open_wb_raise (p : string) (w w1 : World) (e : exn) :
  open_wb p w = (Raise e, w1) → w1 = log (EvOpen p) w.
Proof.
  unfold open_wb. intros H.
  repeat case_match; simplify_eq; reflexivity.
Qed.

Lemma open_wb_ok (p f : string) (w w1 : World) :
  open_wb p w = (Ok f, w1) → f = p ∧ w1 = opened p (log (EvOpen p) w).
Proof.
  unfold open_wb. intros H.
  repeat case_match; simplify_eq; split; reflexivity.
Qed.


Lemma open_wb_ok_iff (p : string) (w : World) :
  is_ok (open_wb p w).1 = true ↔
  ∃ dw, fs w !! dirname p = Some (Dir dw)
        ∧ refusal w = None
        ∧ (fs w !! p = None ∧ dw = true ∨ ∃ c, fs w !! p = Some (File true c)).
Proof.
  unfold open_wb. simpl. split.
  - destruct (fs w !! dirname p) as [[dw|? ?]|]; [|discriminate..].
    destruct (refusal w) as [e|]; [discriminate|].
    intros H. exists dw. split; [reflexivity|]. split; [reflexivity|].
    destruct (fs w !! p) as [[?|[] c]|]; simpl in H; try discriminate.
    + right. by exists c.
    + left. by destruct dw.
  - intros (dw & -> & -> & [[-> ->]|(c & ->)]); reflexivity.
Qed.

(** Whether the open goes through depends on the tree and on the
    platform's refusal only. *)
Lemma open_wb_env (p : string) (w1 w2 : World) :
  fs w1 = fs w2 → refusal w1 = refusal w2 →
  (open_wb p w1).1 = (open_wb p w2).1.
Proof.
  unfold open_wb. simpl. intros -> ->. repeat case_match; reflexivity.
Qed.

(** *** Saving *)

(** Writing any data to any path and closing, when the open goes
    through. *)
Lemma with_open_write (p : string) (data : list Z) (w : World) :
  is_ok (open_wb p w).1 = true →
  with_open p (λ f, write f data) w =
    (if short w data then Raise NoSpaceError else Ok (ByteArray.len data),
     mkWorld (put_node (names_of w p) (File (file_mode w p) (kept w data))
                       (fs w))
             (aliases w) (refusal w) (create_writable w) (quota w)
             (buffer_size w) (stdin w) (stdout w) (stdout_state w) (stderr w)
             (trace w ++ [EvOpen p; EvWrite p data; EvClose p])
             (delete p (pending w)) (unflushed w)).
Proof.
  intros Hok. unfold with_open.
  destruct (open_wb p w) as [[f|e] w1] eqn:Ho; [|discriminate Hok].
  apply open_wb_ok in Ho as [-> ->].
  destruct w as [m al rf cw q bs i o os er t pd uf].
  unfold write, opened, short, kept, names_of, file_mode,
    set_pending, set_fs, log. fields.
  set (fm := match m !! p with Some (File fw _) => fw | _ => cw end).
  set (ns := p :: default [] (al !! p)).
  assert (Hp : p ∈ ns) by (apply elem_of_cons; by left).
  rewrite lookup_insert_eq. cbn [length Nat.add app].
  destruct (length data <=? bs)%nat.
  - unfold close, commit, names_of, set_pending, set_fs, log. fields.
    rewrite lookup_insert_eq. fields. rewrite (lookup_put_node_in _ _ _ _ Hp).
    fold ns. cbn [app].
    rewrite delete_insert_eq, delete_insert_eq, put_node_put_node, <- !app_assoc.
    cbn [app].
    destruct q as [k|]; [destruct (Nat.ltb_spec k (length data))|]; fields;
      rewrite ?put_node_put_node; try reflexivity.
    rewrite take_ge by lia. reflexivity.
  - unfold commit at 1. unfold names_of, set_pending, set_fs. fields.
    rewrite (lookup_put_node_in _ _ _ _ Hp). fold ns. cbn [app].
    destruct q as [k|]; [destruct (Nat.ltb_spec k (length data))|];
      unfold close, commit, names_of, set_pending, set_fs, log; fields;
      rewrite lookup_insert_eq; fields; rewrite (lookup_put_node_in _ _ _ _ Hp);
      fold ns; rewrite ?app_nil_r, ?Nat.ltb_irrefl;
      try (destruct (Nat.ltb_spec k 0); [lia|]);
      rewrite !delete_insert_eq, !put_node_put_node, <- !app_assoc; cbn [app];
      cbn [length Nat.ltb Nat.leb]; rewrite ?app_nil_r; try reflexivity.
    rewrite take_ge by lia. reflexivity.
Qed.

Lemma save_spec (data : list Z) (w : World) :
  is_ok (open_wb out_path w).1 = true →
  save data w =
    (if short w data then Raise NoSpaceError else Ok (ByteArray.len data),
     mkWorld (written w (kept w data))
             (aliases w) (refusal w) (create_writable w) (quota w)
             (buffer_size w) (stdin w) (stdout w) (stdout_state w) (stderr w)
             (trace w ++ [EvOpen out_path; EvWrite out_path data;
                          EvClose out_path])
             (delete out_path (pending w)) (unflushed w)).
Proof. apply with_open_write. Qed.

Lemma save_open_raise (data : list Z) (w : World) (e : exn) :
  (open_wb out_path w).1 = Raise e →
  save data w = (Raise e, log (EvOpen out_path) w).
Proof.
  intros He. unfold save, with_open.
  destruct (open_wb out_path w) as [[f|e'] w1] eqn:Ho; simpl in He;
    [discriminate He|].
  rewrite (open_wb_raise _ _ _ _ Ho). congruence.
Qed.

Lemma short_font_data (w : World) :
  short w font_data = true ↔ ∃ k, quota w = Some k ∧ (k < 4096)%nat.
Proof.
  unfold short. rewrite font_data_length. destruct (quota w) as [k|].
  - rewrite Nat.ltb_lt. split.
    + intros Hk. exists k. split; [reflexivity|exact Hk].
    + intros (k' & Hq & Hk). apply Some_inj in Hq as ->. exact Hk.
  - split; [discriminate|]. intros (k & Hq & _). discriminate Hq.
Qed.

Lemma kept_font_data (w : World) :
  short w font_data = false → kept w font_data = font_data.
Proof.
  unfold short, kept. rewrite font_data_length. destruct (quota w) as [k|].
  - rewrite Nat.ltb_ge. intros Hk. apply take_ge. rewrite font_data_length.
    exact Hk.
  - reflexivity.
Qed.

(** *** The script and the process *)

Lemma script_eq (w : World) :
  script w =
    match save font_data w with
    | (Ok _, w1) => print message w1
    | (Raise e, w1) => (Raise e, w1)
    end.
Proof.
  unfold script, mbind, IO_bind, pure. rewrite build_ok. reflexivity.
Qed.

Lemma open_wb_start (w : World) :
  (open_wb out_path (set_unflushed [] w)).1 = (open_wb out_path w).1.
Proof. apply open_wb_env; reflexivity. Qed.

(** The run when the open fails. *)
Lemma main_open_raise (w : World) (e : exn) :
  (open_wb out_path w).1 = Raise e →
  main w = (1, final w (fs w) [] (traceback e) [EvOpen out_path] (pending w)).
Proof.
  intros He. unfold main. rewrite script_eq, (save_open_raise _ _ e).
  - destruct w. unfold finish, final, put_stderr, log, set_unflushed. fields.
    rewrite app_nil_r. reflexivity.
  - rewrite open_wb_start. exact He.
Qed.

(** The run when the volume is too small. *)
Lemma main_short (w : World) :
  is_ok (open_wb out_path w).1 = true → short w font_data = true →
  main w = (1, final w (written w (kept w font_data)) []
                     (traceback NoSpaceError) calls_saved
                     (delete out_path (pending w))).
Proof.
  intros Hok Hs. unfold main. rewrite script_eq, save_spec.
  - replace (short (set_unflushed [] w) font_data) with true.
    destruct w. unfold finish, final, put_stderr, written, kept, names_of,
      file_mode, set_unflushed, calls_saved. fields.
    rewrite app_nil_r. reflexivity.
  - rewrite open_wb_start. exact Hok.
Qed.

(** The run when the buffer has been saved: the print decides. *)
Lemma main_saved (w : World) :
  is_ok (open_wb out_path w).1 = true → short w font_data = false →
  main w =
    match stdout_state w with
    | Writable =>
        (0, final w (written w font_data) [message] [] calls_all
                  (delete out_path (pending w)))
    | FailsAtWrite e =>
        (1, final w (written w font_data) [] (traceback e) calls_all
                  (delete out_path (pending w)))
    | FailsAtFlush =>
        (120, final w (written w font_data) [] flush_report calls_all
                    (delete out_path (pending w)))
    end.
Proof.
  intros Hok Hs. unfold main. rewrite script_eq, save_spec.
  - replace (short (set_unflushed [] w) font_data) with false.
    replace (kept (set_unflushed [] w) font_data) with font_data
      by (symmetry; apply (kept_font_data w Hs)).
    destruct w as [m al rf cw q bs i o os er t pd uf].
    unfold print, finish, final, put_stdout, put_stderr, log, written,
      names_of, file_mode, set_unflushed, calls_all. fields.
    destruct os; fields; cbn [app]; rewrite ?app_nil_r, <- ?app_assoc;
      reflexivity.
  - rewrite open_wb_start. exact Hok.
Qed.

(** Every run ends in one of three ways: the open fails; the volume is
    too small for the buffer; or the buffer is saved and the print
    decides. *)
Lemma main_cases (w : World) :
  (∃ e, (open_wb out_path w).1 = Raise e
        ∧ main w = (1, final w (fs w) [] (traceback e) [EvOpen out_path]
                             (pending w)))
  ∨ (∃ k, is_ok (open_wb out_path w).1 = true
          ∧ quota w = Some k ∧ (k < 4096)%nat
          ∧ main w = (1, final w (written w (take k font_data)) []
                               (traceback NoSpaceError) calls_saved
                               (delete out_path (pending w))))
  ∨ (is_ok (open_wb out_path w).1 = true
     ∧ (∀ k, quota w = Some k → (4096 ≤ k)%nat)
     ∧ main w =
         match stdout_state w with
         | Writable =>
             (0, final w (written w font_data) [message] [] calls_all
                       (delete out_path (pending w)))
         | FailsAtWrite e =>
             (1, final w (written w font_data) [] (traceback e) calls_all
                       (delete out_path (pending w)))
         | FailsAtFlush =>
             (120, final w (written w font_data) [] flush_report calls_all
                         (delete out_path (pending w)))
         end).
Proof.
  assert (Hd : is_ok (open_wb out_path w).1 = true
               ∨ is_ok (open_wb out_path w).1 = false)
    by (destruct (is_ok (open_wb out_path w).1); auto).
  destruct Hd as [Hok|Hok].
  - destruct (short w font_data) eqn:Hs.
    + right. left. pose proof Hs as Hk.
      apply short_font_data in Hk as (k & Hq & Hk). exists k.
      split; [exact Hok|]. split; [exact Hq|]. split; [exact Hk|].
      rewrite (main_short w Hok Hs). unfold kept. rewrite Hq. reflexivity.
    + right. right. split; [exact Hok|]. split; [|exact (main_saved w Hok Hs)].
      intros k Hq. unfold short in Hs. rewrite Hq, font_data_length in Hs.
      apply Nat.ltb_ge in Hs. exact Hs.
  - left. destruct (open_wb out_path w).1 as [f|e] eqn:Ho; [discriminate Hok|].
    exists e. split; [reflexivity|]. apply main_open_raise, Ho.
Qed.



Lemma content_written (w : World) (c : list Z) (q : string) :
  q ∈ names_of w out_path →
  written w c !! q = Some (File (file_mode w out_path) c).
Proof. apply lookup_put_node_in. Qed.







Example run_world_full :
  (main world_full).1 = 1
  ∧ content_at (main world_full).2 out_path = Some (take 100 font_data)
  ∧ stderr (main world_full).2 = traceback NoSpaceError
  ∧ stdout (main world_full).2 = []
  ∧ (write out_path font_data (opened out_path world_full)).1 = Ok 4096.
Proof. vm_compute. repeat split. Qed.

Example run_world_unbuffered :
  (main world_unbuffered).1 = 1
  ∧ content_at (main world_unbuffered).2 out_path = Some (take 100 font_data)
  ∧ (write out_path font_data (opened out_path world_unbuffered)).1
    = Raise NoSpaceError.
Proof. vm_compute. repeat split. Qed.

Example run_world_readonly :
  main world_readonly
  = (1, put_stderr (traceback PermissionError)
                   (log (EvOpen out_path) world_readonly)).
Proof. vm_compute. reflexivity. Qed.

Example run_world_refused :
  main world_refused
  = (1, put_stderr (traceback OSError) (log (EvOpen out_path) world_refused)).
Proof. vm_compute. reflexivity. Qed.

Example run_world_stale :
  content_at world_stale out_path = Some [1; 2; 3]
  ∧ content_at (main world_stale).2 out_path = Some font_data
  ∧ stdout (main world_stale).2 = [message].
Proof. vm_compute. repeat split. Qed.

Example run_world_linked :
  (main world_linked).1 = 0
  ∧ content_at world_linked "backup.bin" = Some [1; 2; 3]
  ∧ content_at (main world_linked).2 "backup.bin" = Some font_data.
Proof. vm_compute. repeat split. Qed.

Example run_world_piped :
  (main world_piped).1 = 120
  ∧ content_at (main world_piped).2 out_path = Some font_data
  ∧ stdout (main world_piped).2 = []
  ∧ stderr (main world_piped).2 = flush_report.
Proof. vm_compute. repeat split. Qed.

Example run_world_closed :
  (main world_closed).1 = 1
  ∧ content_at (main world_closed).2 out_path = Some font_data
  ∧ stdout (main world_closed).2 = []
  ∧ stderr (main world_closed).2 = traceback BrokenPipeError.
Proof. vm_compute. repeat split. Qed.

Example run_world_masked :
  (main world_masked).1 = 0
  ∧ (main (main world_masked).2).1 = 1
  ∧ stderr (main (main world_masked).2).2 = traceback PermissionError
  ∧ content_at (main (main world_masked).2).2 out_path = Some font_data.
Proof. vm_compute. repeat split. Qed.

(** After a run that saved [c], saving again reaches the same file
    under the same names and leaves it with the same mode. *)
Lemma written_again (w w' : World) (c c' : list Z) :
  fs w' = written w c → aliases w' = aliases w →
  written w' c' = written w c'.
Proof.
  intros Hfs Hal. unfold written at 1. unfold names_of, file_mode.
  rewrite Hal, Hfs. fold (names_of w out_path).
  rewrite (content_written w c out_path (names_of_head w out_path)).
  apply put_node_put_node.
Qed.

(** ** The process: claims *)












(** ** The process: further properties *)






(** X11.  A second run right after any run, failed or not, leaves the
    file system as the first left it; and when its open fares as the
    open of the first did, it ends with the same status. *)
Theorem X11_rerun_same_outcome (w : World) :
  fs (main (main w).2).2 = fs (main w).2
  ∧ (is_ok (open_wb out_path (main w).2).1 = is_ok (open_wb out_path w).1 →
     (main (main w).2).1 = (main w).1).
Proof.
  set (w' := (main w).2).
  destruct (main_cases w)
    as [(e & Ho & Hm)|[(k & Hok & Hq & Hk & Hm)|(Hok & Hq & Hm)]].
  - assert (Ho' : (open_wb out_path w').1 = Raise e).
    { rewrite <- Ho. apply open_wb_env; subst w'; rewrite Hm; reflexivity. }
    assert (Hfs' : fs w' = fs w) by (subst w'; rewrite Hm; reflexivity).
    rewrite (main_open_raise w' e Ho'), Hm. unfold final. fields.
    split; reflexivity.
  - assert (Hfs' : fs w' = written w (take k font_data))
      by (subst w'; rewrite Hm; reflexivity).
    assert (Hal' : aliases w' = aliases w) by (subst w'; rewrite Hm; reflexivity).
    assert (Hq' : quota w' = Some k) by (subst w'; rewrite Hm; exact Hq).
    assert (Hm1 : (main w).1 = 1) by (rewrite Hm; reflexivity).
    rewrite Hm1, Hok.
    destruct (main_cases w')
      as [(e' & Ho' & Hm')|[(k' & _ & Hq'' & _ & Hm')|(_ & Hall' & _)]].
    + rewrite Hm', Ho'. unfold final. fields.
      split; [reflexivity|]. intros _. reflexivity.
    + assert (k' = k) as -> by congruence.
      rewrite Hm'. unfold final. fields.
      rewrite (written_again w w' _ _ Hfs' Hal'), Hfs'.
      split; [reflexivity|]. intros _. reflexivity.
    + apply Hall' in Hq'. lia.
  - assert (Hw' : fs w' = written w font_data ∧ aliases w' = aliases w
                  ∧ quota w' = quota w ∧ stdout_state w' = stdout_state w).
    { subst w'. destruct (stdout_state w) eqn:E; rewrite Hm; unfold final;
        fields; rewrite ?E; repeat split. }
    destruct Hw' as (Hfs' & Hal' & Hq' & Hs'). rewrite Hok.
    destruct (main_cases w')
      as [(e' & Ho' & Hm')|[(k' & _ & Hq'' & Hk' & _)|(_ & _ & Hm')]].
    + rewrite Hm', Ho'. unfold final. fields.
      split; [reflexivity|]. discriminate.
    + rewrite Hq' in Hq''. apply Hq in Hq''. lia.
    + rewrite Hs' in Hm'. rewrite Hm'.
      destruct (stdout_state w); rewrite Hm; unfold final; fields;
        rewrite (written_again w w' _ _ Hfs' Hal'), Hfs';
        (split; [reflexivity|]); intros _; reflexivity.
Qed.

Lemma X11_rerun_same_outcome_witness :
  fs (main (main world_full).2).2 = fs (main world_full).2
  ∧ (main (main world_full).2).1 = (main world_full).1.
Proof.
  destruct (X11_rerun_same_outcome world_full) as [Hfs Hst].
  split; [exact Hfs|]. apply Hst. reflexivity.
Defined.


